(** * appkey.Check: application-key and session-freshness check

  A shallow embedding of [src/appkey/client.go] and of the slice of its
  imports that [Check] runs through:

  - [time]: instants and the saturating subtraction behind [Until];
  - [json]: the dynamic values [encoding/json] stores in an [interface{}];
  - [jwt]: [github.com/golang-jwt/jwt/v5], the [MapClaims] accessors and
    the error values of that package;
  - [appkey]: the package under verification.

  Go's [error] interface, nil pointers and run-time panics are explicit:
  an [error] result is an [option], a pointer is an [option] of an address
  and a call runs in a small state monad whose outcome is a value or a
  panic. *)

From Stdlib Require Import ZArith String Ascii List Uint63 PrimFloat SpecFloat FloatOps Lia.
From stdpp Require Import gmap strings.

Set Warnings "-register-all".
Local Open Scope Z_scope.

(** ** Package [time] *)

Module time.

(** A [time.Time] without monotonic reading, as [time.Unix] builds it: the
    instant in nanoseconds since the Unix epoch. *)
Record Time := { UnixNano : Z }.

(** [type Duration int64] (nanoseconds). *)
Definition Duration := Z.
Definition minDuration : Duration := - 2 ^ 63.
Definition maxDuration : Duration := 2 ^ 63 - 1.

(** [func (t Time) Sub(u Time) Duration]: [t-u], or the minimum (maximum)
    duration when the difference does not fit. *)
Definition Sub (t u : Time) : Duration :=
  let d := UnixNano t - UnixNano u in
  if d <? minDuration then minDuration
  else if maxDuration <? d then maxDuration
  else d.

(** [func (t Time) Before(u Time) bool]. *)
Definition Before (t u : Time) : bool := UnixNano t <? UnixNano u.

(** [func (t Time) String() string] prints the instant in the process's
    local time zone, which is not part of the program: the printer is a
    parameter. *)
Class Local := { Time_String : Time -> string }.

End time.

(** ** Package [encoding/json]: decoded values *)

Module json.

(** What [json.Unmarshal] stores in an [interface{}] (without
    [UseNumber]): nil, bool, float64, string, []interface{} and
    map[string]interface{}. *)
Inductive Value :=
| VNil
| VBool (b : bool)
| VFloat64 (f : float)
| VString (s : string)
| VSlice (l : list Value)
| VMap (m : gmap string Value).

(** [m[key]] on a [map[string]interface{}]: the zero value (a nil
    interface) when the key is absent. *)
Definition index (m : gmap string Value) (key : string) : Value :=
  default VNil (m !! key).

(** [v == s] for an interface value [v] and a string constant [s]: true
    only when the dynamic type of [v] is string and the strings are
    equal. No dynamic type panics here, the right operand being a
    string. *)
Definition eq_string (v : Value) (s : string) : bool :=
  match v with
  | VString s' => String.eqb s' s
  | _ => false
  end.

End json.

(** ** Package [github.com/golang-jwt/jwt/v5]

    The library is an import of [client.go], not one of its sources. What
    [Check] calls in it is embedded here after the library's v5 sources:
    [newError] (errors.go), [NumericDate] (types.go), [MapClaims] with
    [parseNumericDate] and [GetExpirationTime] (map_claims.go), and the
    contract of [ParseUnverified] (parser.go). *)

Module jwt.

Import json.

(** The package-level error variables met on the paths of [Check]. *)
Inductive errvar := ErrTokenMalformed | ErrTokenUnverifiable | ErrInvalidType.

Definition errvar_text (v : errvar) : string :=
  match v with
  | ErrTokenMalformed => "token is malformed"
  | ErrTokenUnverifiable => "token is unverifiable"
  | ErrInvalidType => "invalid type for claim"
  end.

(** An error value built inside the library: one of its variables, an
    error of [encoding/base64] or [encoding/json] (kept as its text), or
    the result of the package's [newError], which wraps its operands.
    Such a value never holds a variable of another package. *)
Inductive error :=
| var (v : errvar)
| cause (text : string)
| joined (text : string) (errs : list error).

Definition Error (e : error) : string :=
  match e with
  | var v => errvar_text v
  | cause text => text
  | joined text _ => text
  end.

(** [newError(message, err, more...)]: the text is [err: message] followed
    by [": "] and each further error; all of [err], [more...] are wrapped. *)
Definition newError (message : string) (err : error) (more : list error) : error :=
  let head :=
    if String.eqb message EmptyString then Error err
    else Error err +:+ ": " +:+ message in
  joined (fold_left (fun acc e => acc +:+ ": " +:+ Error e) more head)
         (err :: more).

(** [type NumericDate struct { time.Time }]. *)
Record NumericDate := { Time : time.Time }.

(** [type MapClaims map[string]interface{}]. *)
Abbreviation MapClaims := (gmap string Value).

(** The [Claims] interface by its dynamic type: [MapClaims], or any other
    implementation, kept as its type name (what [%T] prints) and what its
    [GetExpirationTime] method returns. *)
Inductive Claims :=
| IMapClaims (m : MapClaims)
| IOther (T : string) (exp : option NumericDate * option error).

(** [type Token struct]: the fields [Check] can observe. *)
Record Token := { Raw : string; Token_Claims : Claims }.

(** The two operations of the library that work on bytes and floats, taken
    as parameters:
    - [ParseUnverified] of [NewParser()]: splits the token string, decodes
      the header and claims segments (base64url, then JSON into the claims
      value it was given) and looks the signing method up, without checking
      the signature. It returns the token, or an error of the library; the
      token is non-nil whenever the error is nil.
    - [newNumericDateFromSeconds]: the instant of a float64 number of
      seconds, truncated to [TimePrecision]. *)
Class Codec := {
  ParseUnverified : string -> Claims -> Token + error;
  newNumericDateFromSeconds : float -> NumericDate;
}.

Section MapClaims.
Context `{Codec}.

(** [MapClaims.parseNumericDate(key)], returning a [NumericDate] pointer
    and an error:
    an absent key and a zero number both give [(nil, nil)]; a value that is
    not a number gives [ErrInvalidType]. *)
Definition parseNumericDate (m : MapClaims) (key : string)
  : option NumericDate * option error :=
  match m !! key with
  | None => (None, None)
  | Some (VFloat64 exp) =>
      if PrimFloat.eqb exp 0%float then (None, None)
      else (Some (newNumericDateFromSeconds exp), None)
  | Some _ => (None, Some (newError (key +:+ " is invalid") (var ErrInvalidType) []))
  end.

(** [Claims.GetExpirationTime]; for [MapClaims] it is
    [m.parseNumericDate("exp")]. *)
Definition GetExpirationTime (c : Claims) : option NumericDate * option error :=
  match c with
  | IMapClaims m => parseNumericDate m "exp"
  | IOther _ exp => exp
  end.

End MapClaims.

End jwt.

(** ** Package [github.com/bluesky-social/indigo/api/atproto] *)

Module atproto.

(** Modelled from the spec: the declaration of [ServerCreateSession_Output]
    is not among the sources. The spec gives the session two token strings,
    the access and the refresh token, next to the other fields of a login
    response (handle, DID, email). *)
Record ServerCreateSession_Output := {
  AccessJwt : string;
  Did : string;
  Email : option string;
  Handle : string;
  RefreshJwt : string;
}.

End atproto.

(** ** Run-time model: heap, clock, panics *)

(** A pointer is nil or the address of a live object. *)
Definition loc := positive.
Definition ptr := option loc.

(** What a call can read or write: the sessions on the heap and the wall
    clock. *)
Record World := {
  mem : gmap loc atproto.ServerCreateSession_Output;
  now : time.Time;
}.

(** A call returns a value or panics. *)
Inductive Res (A : Type) :=
| Ret (a : A)
| Panic (msg : string).
Arguments Ret {A} a.
Arguments Panic {A} msg.

Definition Go (A : Type) : Type := World -> Res A * World.

#[export] Instance Go_ret : MRet Go := fun A a w => (Ret a, w).

#[export] Instance Go_bind : MBind Go := fun A B f m w =>
  match m w with
  | (Ret a, w') => f a w'
  | (Panic msg, w') => (Panic msg, w')
  end.

Definition panic {A} (msg : string) : Go A := fun w => (Panic msg, w).

Definition nil_dereference : string :=
  "runtime error: invalid memory address or nil pointer dereference".

(** The object a pointer refers to, if any. *)
Definition deref (w : World) (p : ptr) : option atproto.ServerCreateSession_Output :=
  match p with
  | Some l => mem w !! l
  | None => None
  end.

(** Reading a field through a session pointer, [p.f]: a nil pointer
    panics. *)
Definition load (p : ptr) : Go atproto.ServerCreateSession_Output := fun w =>
  match deref w p with
  | Some s => (Ret s, w)
  | None => (Panic nil_dereference, w)
  end.

(** [p.Time] for a [*jwt.NumericDate]. *)
Definition NumericDate_Time (p : option jwt.NumericDate) : Go time.Time :=
  match p with
  | Some d => mret (jwt.Time d)
  | None => panic nil_dereference
  end.

(** [time.Now()]. *)
Definition time_Now : Go time.Time := fun w => (Ret (now w), w).

(** [time.Until(t)], which is [t.Sub(time.Now())] for a [t] without
    monotonic reading. *)
Definition time_Until (t : time.Time) : Go time.Duration :=
  u ← time_Now; mret (time.Sub t u).

(** ** Package [appkey] *)

Module appkey.

Import atproto.

(** The package's three error variables; each holds the value of one
    [errors.New] call, told apart by identity. *)
Inductive errvar := ErrLoginUnauthorized | ErrMasterCredentials | ErrSessionExpired.

#[export] Instance errvar_eq_dec : EqDecision errvar.
Proof. solve_decision. Defined.

Definition errvar_text (v : errvar) : string :=
  match v with
  | ErrLoginUnauthorized => "unauthorized"
  | ErrMasterCredentials => "master credentials used"
  | ErrSessionExpired => "session expired"
  end.

(** The error values [Check] can return: a package variable, the results of
    [fmt.Errorf] with one [%w] ([*fmt.wrapError]), with several
    ([*fmt.wrapErrors]) and with none, and an error handed over by the
    library. *)
Inductive error :=
| errorString (v : errvar)
| wrapError (msg : string) (err : error)
| wrapErrors (msg : string) (errs : list error)
| fmtError (msg : string)
| library (e : jwt.error).

(** [err.Error()]. *)
Definition Error (e : error) : string :=
  match e with
  | errorString v => errvar_text v
  | wrapError msg _ => msg
  | wrapErrors msg _ => msg
  | fmtError msg => msg
  | library e => jwt.Error e
  end.

(** [errors.Is(err, target)] for [target] one of the package variables:
    [err] is the variable's value, or unwraps ([Unwrap() error],
    [Unwrap() []error]) to it. A library error never does: the library
    cannot name a variable of this package, and [errors.Is] compares by
    identity. *)
Fixpoint errors_Is (err : error) (target : errvar) : bool :=
  match err with
  | errorString v => bool_decide (v = target)
  | wrapError _ e => errors_Is e target
  | wrapErrors _ es => existsb (fun e => errors_Is e target) es
  | fmtError _ => false
  | library _ => false
  end.

Section Check.
Context `{time.Local, jwt.Codec}.

(** [func Check(sess *atproto.ServerCreateSession_Output) error]
    (client.go, lines 42-76). *)
Definition Check (sess : ptr) : Go (option error) :=
  s ← load sess;
  match jwt.ParseUnverified (AccessJwt s) (jwt.IMapClaims ∅) with
  | inr err => mret (Some (library err))
  | inl token =>
  match jwt.Token_Claims token with
  | jwt.IOther T _ => mret (Some (fmtError ("unexpected type for claims: " +:+ T)))
  | jwt.IMapClaims claims =>
  if negb (json.eq_string (json.index claims "scope") "com.atproto.appPass")
  then mret (Some (wrapErrors
               (errvar_text ErrLoginUnauthorized +:+ ": " +:+ errvar_text ErrMasterCredentials)
               [errorString ErrLoginUnauthorized; errorString ErrMasterCredentials]))
  else
  match jwt.GetExpirationTime (jwt.Token_Claims token) with
  | (_, Some err) => mret (Some (library err))
  | (current, None) =>
  t ← NumericDate_Time current;
  d ← time_Until t;
  if d <? 0
  then mret (Some (wrapError
               (errvar_text ErrSessionExpired +:+ ": refresh token was valid until "
                  +:+ time.Time_String t)
               (errorString ErrSessionExpired)))
  else
  s ← load sess;
  match jwt.ParseUnverified (RefreshJwt s) (jwt.IMapClaims ∅) with
  | inr err => mret (Some (library err))
  | inl token =>
  match jwt.GetExpirationTime (jwt.Token_Claims token) with
  | (_, Some err) => mret (Some (library err))
  | (_, None) => mret None
  end end end end end.

(** *** Vocabulary of the statements *)

(** The scope of an application key. *)
Definition appPass : string := "com.atproto.appPass".

(** [tokenString] decodes, unverified, to the claims set [m]. *)
Definition decodes (tokenString : string) (m : jwt.MapClaims) : Prop :=
  exists token,
    jwt.ParseUnverified tokenString (jwt.IMapClaims ∅) = inl token
    /\ jwt.Token_Claims token = jwt.IMapClaims m.

(** [tokenString] cannot be decoded: the parser reports [e]. *)
Definition malformed (tokenString : string) (e : jwt.error) : Prop :=
  jwt.ParseUnverified tokenString (jwt.IMapClaims ∅) = inr e.

(** The access token of [s] passes the scope check and the expiration check
    at the time of [w]: it decodes, its scope is [appPass], its expiration
    is extracted and is not before the clock. *)
Definition access_passes (w : World) (s : ServerCreateSession_Output) : Prop :=
  exists m d,
    decodes (AccessJwt s) m
    /\ m !! "scope"%string = Some (json.VString appPass)
    /\ jwt.GetExpirationTime (jwt.IMapClaims m) = (Some d, None)
    /\ time.Before (jwt.Time d) (now w) = false.

(** One of the access-token checks fails: the decoding, the scope, the
    extraction of the expiration, or the expiration against the clock. *)
Definition access_fails (w : World) (s : ServerCreateSession_Output) : Prop :=
  (exists e, malformed (AccessJwt s) e)
  \/ exists m, decodes (AccessJwt s) m
       /\ (m !! "scope"%string <> Some (json.VString appPass)
           \/ (exists p e, jwt.GetExpirationTime (jwt.IMapClaims m) = (p, Some e))
           \/ (exists d, jwt.GetExpirationTime (jwt.IMapClaims m) = (Some d, None)
                        /\ time.Before (jwt.Time d) (now w) = true)).

End Check.

(** The values of the two [fmt.Errorf] calls that wrap package variables. *)
Definition master_credentials_error : error :=
  wrapErrors "unauthorized: master credentials used"
    [errorString ErrLoginUnauthorized; errorString ErrMasterCredentials].

Definition session_expired_error `{time.Local} (t : time.Time) : error :=
  wrapError ("session expired: refresh token was valid until " +:+ time.Time_String t)
    (errorString ErrSessionExpired).


(** None of the three conditions callers test for. *)
Definition no_sentinel (err : error) : Prop :=
  forall target, errors_Is err target = false.

End appkey.

(** ** A reference platform

    Every theorem below is stated for an arbitrary [jwt.Codec] and
    [time.Local]. To run [Check] on token strings, [Reference] is one
    platform: the steps of [ParseUnverified] in order (split on ["."],
    three segments, unpadded base64url, JSON, signing-method lookup), with
    a JSON reader for the texts tokens are made of: objects, arrays,
    strings of printable ASCII without escapes, integer literals up to
    2^53, [true], [false], [null]. A text outside that fragment is
    reported as a decoding error. Instants are whole seconds and print in
    UTC.

    Where it stops short of the library: numbers with a fraction or an
    exponent, string escapes and bytes outside printable ASCII are refused;
    the signature segment is left undecoded, as in v5.0 of the library
    (later releases decode it and refuse a token whose signature is not
    base64url); the errors of [encoding/base64] and [encoding/json] are
    kept as a fixed text, without the offset they report; seconds are not
    reduced to int64. The statements that run this platform use tokens
    inside the fragment, with timestamps of nine and ten digits. *)

Module Reference.

Import json jwt.

(** [strings.Split(s, ".")]. *)
Fixpoint Split (s : string) : list string :=
  match s with
  | EmptyString => [EmptyString]
  | String c rest =>
      if Ascii.eqb c "."%char then EmptyString :: Split rest
      else match Split rest with
           | h :: t => String c h :: t
           | [] => [String c EmptyString]
           end
  end.

(** The value of a character of the URL alphabet of base64. *)
Definition sextet (c : ascii) : option Z :=
  let n := Z.of_N (N_of_ascii c) in
  if (65 <=? n) && (n <=? 90) then Some (n - 65)
  else if (97 <=? n) && (n <=? 122) then Some (n - 71)
  else if (48 <=? n) && (n <=? 57) then Some (n + 4)
  else if n =? 45 then Some 62
  else if n =? 95 then Some 63
  else None.

Definition byte (n : Z) : ascii := ascii_of_N (Z.to_N (n mod 256)).

(** Four sextets make three bytes; a tail of two or three makes one or two
    bytes, the left-over bits dropped; a tail of one is an error. *)
Fixpoint quanta (l : list Z) : option (list ascii) :=
  match l with
  | [] => Some []
  | [_] => None
  | [a; b] => Some [byte (a * 4 + b / 16)]
  | [a; b; c] => Some [byte (a * 4 + b / 16); byte (b * 16 + c / 4)]
  | a :: b :: c :: d :: rest =>
      option_map
        (fun t => byte (a * 4 + b / 16) :: byte (b * 16 + c / 4) :: byte (c * 64 + d) :: t)
        (quanta rest)
  end.

(** The decoder of [encoding/base64] skips carriage returns and line
    feeds wherever they stand. *)
Definition is_newline (c : ascii) : bool :=
  let n := Z.of_N (N_of_ascii c) in (n =? 10) || (n =? 13).

(** [Parser.DecodeSegment]: [base64.RawURLEncoding.DecodeString]. *)
Definition DecodeSegment (seg : string) : option (list ascii) :=
  l ← mapM sextet (List.filter (fun c => negb (is_newline c)) (list_ascii_of_string seg));
  quanta l.

Definition code (c : ascii) : Z := Z.of_N (N_of_ascii c).

Definition is_space (c : ascii) : bool :=
  let n := code c in (n =? 32) || (n =? 9) || (n =? 10) || (n =? 13).

Fixpoint skip_space (s : list ascii) : list ascii :=
  match s with
  | c :: r => if is_space c then skip_space r else s
  | [] => []
  end.

(** The body of a string literal, after its opening quote. *)
Fixpoint read_string (s : list ascii) : option (string * list ascii) :=
  match s with
  | [] => None
  | c :: r =>
      if code c =? 34 then Some (EmptyString, r)
      else if (code c =? 92) || (code c <? 32) || (126 <? code c) then None
      else match read_string r with
           | Some (t, r') => Some (String c t, r')
           | None => None
           end
  end.

Definition is_digit (c : ascii) : bool := (48 <=? code c) && (code c <=? 57).

Fixpoint read_digits (s : list ascii) (acc : Z) : Z * list ascii :=
  match s with
  | c :: r => if is_digit c then read_digits r (acc * 10 + (code c - 48)) else (acc, s)
  | [] => (acc, [])
  end.

(** An integer literal without its sign: no leading zero, no fraction, no
    exponent, at most 2^53 so that the float64 is exact. *)
Definition read_natural (s : list ascii) : option (float * list ascii) :=
  match s with
  | c :: r =>
      if is_digit c then
        let '(n, r') := if code c =? 48 then (0, r) else read_digits s 0 in
        let follows :=
          match r' with
          | c' :: _ => is_digit c' || (code c' =? 46) || (code c' =? 101) || (code c' =? 69)
          | [] => false
          end in
        if follows || (2 ^ 53 <? n) then None
        else Some (PrimFloat.of_uint63 (Uint63.of_Z n), r')
      else None
  | [] => None
  end.

Definition read_number (s : list ascii) : option (Value * list ascii) :=
  match s with
  | c :: r =>
      if code c =? 45 then
        match read_natural r with
        | Some (f, r') => Some (VFloat64 (PrimFloat.opp f), r')
        | None => None
        end
      else
        match read_natural s with
        | Some (f, r') => Some (VFloat64 f, r')
        | None => None
        end
  | [] => None
  end.

(** A string literal, quotes included. *)
Definition read_key (s : list ascii) : option (string * list ascii) :=
  match s with
  | c :: r => if code c =? 34 then read_string r else None
  | [] => None
  end.

(** A string or a number. *)
Definition read_scalar (s : list ascii) : option (Value * list ascii) :=
  match read_key s with
  | Some (t, r) => Some (VString t, r)
  | None =>
      match s with
      | c :: _ => if code c =? 34 then None else read_number s
      | [] => None
      end
  end.

(** One JSON value, and the members of an object and the elements of an
    array after the first; [fuel] bounds the nesting and the length. A
    repeated key keeps its last value. *)
Fixpoint value (fuel : nat) (s : list ascii) {struct fuel} : option (Value * list ascii) :=
  match fuel with
  | O => None
  | S n =>
      match skip_space s with
      | "{"%char :: r =>
          match skip_space r with
          | "}"%char :: r' => Some (VMap ∅, r')
          | r' => members n r' ∅
          end
      | "["%char :: r =>
          match skip_space r with
          | "]"%char :: r' => Some (VSlice [], r')
          | r' => elements n r' []
          end
      | "t"%char :: "r"%char :: "u"%char :: "e"%char :: r => Some (VBool true, r)
      | "f"%char :: "a"%char :: "l"%char :: "s"%char :: "e"%char :: r => Some (VBool false, r)
      | "n"%char :: "u"%char :: "l"%char :: "l"%char :: r => Some (VNil, r)
      | r => read_scalar r
      end
  end
with members (fuel : nat) (s : list ascii) (acc : gmap string Value) {struct fuel}
  : option (Value * list ascii) :=
  match fuel with
  | O => None
  | S n =>
      match read_key (skip_space s) with
      | Some (k, r1) =>
          match skip_space r1 with
          | ":"%char :: r2 =>
              match value n r2 with
              | Some (v, r3) =>
                  match skip_space r3 with
                  | ","%char :: r4 => members n r4 (<[k:=v]> acc)
                  | "}"%char :: r4 => Some (VMap (<[k:=v]> acc), r4)
                  | _ => None
                  end
              | None => None
              end
          | _ => None
          end
      | None => None
      end
  end
with elements (fuel : nat) (s : list ascii) (acc : list Value) {struct fuel}
  : option (Value * list ascii) :=
  match fuel with
  | O => None
  | S n =>
      match value n s with
      | Some (v, r) =>
          match skip_space r with
          | ","%char :: r' => elements n r' (acc ++ [v])
          | "]"%char :: r' => Some (VSlice (acc ++ [v]), r')
          | _ => None
          end
      | None => None
      end
  end.

(** [json.Unmarshal] into a [map[string]interface{}]: one object and
    nothing after it; [null] leaves the map as it was. *)
Definition Unmarshal (data : list ascii) (into : gmap string Value)
  : option (gmap string Value) :=
  match value (S (length data)) data with
  | Some (VMap m, r) => match skip_space r with [] => Some (m ∪ into) | _ => None end
  | Some (VNil, r) => match skip_space r with [] => Some into | _ => None end
  | _ => None
  end.

(** The signing methods the library registers when it is loaded. *)
Definition signingMethods : list string :=
  ["HS256"; "HS384"; "HS512"; "RS256"; "RS384"; "RS512"; "PS256"; "PS384";
   "PS512"; "ES256"; "ES384"; "ES512"; "EdDSA"; "none"]%string.

Definition GetSigningMethod (alg : string) : bool :=
  existsb (String.eqb alg) signingMethods.

(** The claims value handed to the parser is the one the token keeps. A
    [MapClaims] receives the decoded members; a value of another type is
    kept as it was given, this model not decoding into it ([Check] passes
    a [MapClaims]). *)
Definition claims_map (claims : Claims) : gmap string Value :=
  match claims with
  | IMapClaims m => m
  | IOther _ _ => ∅
  end.

Definition claims_fill (claims : Claims) (m : gmap string Value) : Claims :=
  match claims with
  | IMapClaims _ => IMapClaims m
  | IOther T exp => IOther T exp
  end.

Definition decodingError (message text : string) : error :=
  newError message (var ErrTokenMalformed) [cause text].

Definition ParseUnverified (tokenString : string) (claims : Claims) : Token + error :=
  match Split tokenString with
  | [h; c; _] =>
      match DecodeSegment h with
      | None => inr (decodingError "could not base64 decode header" "illegal base64 data")
      | Some headerBytes =>
      match Unmarshal headerBytes ∅ with
      | None => inr (decodingError "could not JSON decode header" "invalid JSON")
      | Some Header =>
      match DecodeSegment c with
      | None => inr (decodingError "could not base64 decode claim" "illegal base64 data")
      | Some claimBytes =>
      match Unmarshal claimBytes (claims_map claims) with
      | None => inr (decodingError "could not JSON decode claim" "invalid JSON")
      | Some m =>
      match Header !! "alg"%string with
      | Some (VString method) =>
          if GetSigningMethod method
          then inl {| Raw := tokenString; Token_Claims := claims_fill claims m |}
          else inr (newError "signing method (alg) is unavailable" (var ErrTokenUnverifiable) [])
      | _ => inr (newError "signing method (alg) is unspecified" (var ErrTokenUnverifiable) [])
      end end end end end
  | _ => inr (newError "token contains an invalid number of segments" (var ErrTokenMalformed) [])
  end.

(** The whole seconds of a finite float64, rounded down. *)
Definition seconds (f : float) : Z :=
  match Prim2SF f with
  | S754_finite s m e =>
      let v := if s then Z.neg m else Z.pos m in
      if 0 <=? e then v * 2 ^ e else v / 2 ^ (- e)
  | _ => 0
  end.

Definition newNumericDateFromSeconds (f : float) : NumericDate :=
  {| Time := {| time.UnixNano := seconds f * 1000000000 |} |}.

#[export] Instance codec : Codec := {|
  jwt.ParseUnverified := ParseUnverified;
  jwt.newNumericDateFromSeconds := newNumericDateFromSeconds;
|}.

(** Decimal digits of a natural number, at least [width] of them. *)
Fixpoint digits (width : nat) (n : Z) : string :=
  match width with
  | O => EmptyString
  | S w => digits w (n / 10) +:+ String (ascii_of_N (Z.to_N (48 + n mod 10))) EmptyString
  end.

(** Year, month and day of a day number counted from 1970-01-01 in the
    proleptic Gregorian calendar. *)
Definition civil (days : Z) : Z * Z * Z :=
  let z := days + 719468 in
  let era := z / 146097 in
  let doe := z - era * 146097 in
  let yoe := (doe - doe / 1460 + doe / 36524 - doe / 146096) / 365 in
  let doy := doe - (365 * yoe + yoe / 4 - yoe / 100) in
  let mp := (5 * doy + 2) / 153 in
  let d := doy - (153 * mp + 2) / 5 + 1 in
  let m := if mp <? 10 then mp + 3 else mp - 9 in
  (yoe + era * 400 + (if m <=? 2 then 1 else 0), m, d).

(** The fraction of a second as [Time.String] prints it: nothing when zero,
    else a dot and the nanoseconds without trailing zeros. *)
Fixpoint fraction (width : nat) (ns : Z) : string :=
  match width with
  | O => EmptyString
  | S w => if ns mod 10 =? 0 then fraction w (ns / 10) else "." +:+ digits width ns
  end.

(** [Time.String] in UTC, for the years 0000 to 9999. *)
Definition Time_String (t : time.Time) : string :=
  let sec := time.UnixNano t / 1000000000 in
  let ns := time.UnixNano t mod 1000000000 in
  let '(y, m, d) := civil (sec / 86400) in
  let s := sec mod 86400 in
  digits 4 y +:+ "-" +:+ digits 2 m +:+ "-" +:+ digits 2 d +:+ " "
    +:+ digits 2 (s / 3600) +:+ ":" +:+ digits 2 (s / 60 mod 60) +:+ ":" +:+ digits 2 (s mod 60)
    +:+ fraction 9 ns +:+ " +0000 UTC".

#[export] Instance utc : time.Local := {| time.Time_String := Time_String |}.

End Reference.

(** ** Sessions used to run [Check] on the reference platform

    Every token has the header [{"alg":"HS256","typ":"JWT"}] and the
    signature segment [c2ln]; the payload is given next to each. The clock
    of [world] reads 1700003600 s (2023-11-14 23:13:20 UTC). *)

Module Sessions.

Import atproto.

Definition header : string := "eyJhbGciOiJIUzI1NiIsInR5cCI6IkpXVCJ9".

(** scope com.atproto.appPass, sub did:plc:abc123, iat 1700000000,
    exp 1700007200: one hour after the clock. *)
Definition access_ok : string :=
  header +:+ ".eyJzY29wZSI6ImNvbS5hdHByb3RvLmFwcFBhc3MiLCJzdWIiOiJkaWQ6cGxjOmFiYzEyMyIsImlhdCI6MTcwMDAwMDAwMCwiZXhwIjoxNzAwMDA3MjAwfQ.c2ln".

(** scope com.atproto.appPass, sub did:plc:abc123, iat 1699990000,
    exp 1700000000: one hour before the clock. *)
Definition access_expired : string :=
  header +:+ ".eyJzY29wZSI6ImNvbS5hdHByb3RvLmFwcFBhc3MiLCJzdWIiOiJkaWQ6cGxjOmFiYzEyMyIsImlhdCI6MTY5OTk5MDAwMCwiZXhwIjoxNzAwMDAwMDAwfQ.c2ln".

(** scope com.atproto.access, sub did:plc:abc123, iat 1700000000,
    exp 1700007200. *)
Definition access_master : string :=
  header +:+ ".eyJzY29wZSI6ImNvbS5hdHByb3RvLmFjY2VzcyIsInN1YiI6ImRpZDpwbGM6YWJjMTIzIiwiaWF0IjoxNzAwMDAwMDAwLCJleHAiOjE3MDAwMDcyMDB9.c2ln".

(** scope com.atproto.access, sub did:plc:abc123, iat 1699990000,
    exp 1700000000. *)
Definition access_master_expired : string :=
  header +:+ ".eyJzY29wZSI6ImNvbS5hdHByb3RvLmFjY2VzcyIsInN1YiI6ImRpZDpwbGM6YWJjMTIzIiwiaWF0IjoxNjk5OTkwMDAwLCJleHAiOjE3MDAwMDAwMDB9.c2ln".

(** sub did:plc:abc123, exp 1700007200; no scope. *)
Definition access_noscope : string :=
  header +:+ ".eyJzdWIiOiJkaWQ6cGxjOmFiYzEyMyIsImV4cCI6MTcwMDAwNzIwMH0.c2ln".

(** scope com.atproto.appPass, sub did:plc:abc123; no exp. *)
Definition access_noexp : string :=
  header +:+ ".eyJzY29wZSI6ImNvbS5hdHByb3RvLmFwcFBhc3MiLCJzdWIiOiJkaWQ6cGxjOmFiYzEyMyJ9.c2ln".

(** scope com.atproto.refresh, sub did:plc:abc123, exp 1707776000. *)
Definition refresh_ok : string :=
  header +:+ ".eyJzY29wZSI6ImNvbS5hdHByb3RvLnJlZnJlc2giLCJzdWIiOiJkaWQ6cGxjOmFiYzEyMyIsImV4cCI6MTcwNzc3NjAwMH0.c2ln".

(** scope com.atproto.refresh, sub did:plc:abc123, exp 1600000000: long
    before the clock. *)
Definition refresh_past : string :=
  header +:+ ".eyJzY29wZSI6ImNvbS5hdHByb3RvLnJlZnJlc2giLCJzdWIiOiJkaWQ6cGxjOmFiYzEyMyIsImV4cCI6MTYwMDAwMDAwMH0.c2ln".

(** scope com.atproto.refresh, sub did:plc:abc123; no exp. *)
Definition refresh_noexp : string :=
  header +:+ ".eyJzY29wZSI6ImNvbS5hdHByb3RvLnJlZnJlc2giLCJzdWIiOiJkaWQ6cGxjOmFiYzEyMyJ9.c2ln".

(** scope com.atproto.refresh, exp the string never. *)
Definition refresh_badexp : string :=
  header +:+ ".eyJzY29wZSI6ImNvbS5hdHByb3RvLnJlZnJlc2giLCJleHAiOiJuZXZlciJ9.c2ln".

(** Not a token: no dot. *)
Definition refresh_broken : string := "not-a-token".

Definition session (access refresh : string) : ServerCreateSession_Output := {|
  AccessJwt := access;
  Did := "did:plc:abc123";
  Email := Some "alice@example.com"%string;
  Handle := "alice.test";
  RefreshJwt := refresh;
|}.

Definition clock : time.Time := {| time.UnixNano := 1700003600 * 1000000000 |}.

(** One session on the heap, at address 1. *)
Definition here : ptr := Some 1%positive.

Definition world (access refresh : string) : World :=
  {| mem := {[ 1%positive := session access refresh ]}; now := clock |}.

(** The same heap a minute later. *)
Definition later (w : World) : World :=
  {| mem := mem w; now := {| time.UnixNano := time.UnixNano (now w) + 60 * 1000000000 |} |}.

(** Another account's record carrying the same two tokens, at address 2 of
    a heap of its own. *)
Definition other_session (access refresh : string) : ServerCreateSession_Output := {|
  AccessJwt := access;
  Did := "did:plc:xyz789";
  Email := None;
  Handle := "bob.test";
  RefreshJwt := refresh;
|}.

Definition there : ptr := Some 2%positive.

Definition other_world (access refresh : string) : World :=
  {| mem := {[ 2%positive := other_session access refresh ]}; now := clock |}.

(** What the reference parser makes of a token string. *)
Definition claims (tokenString : string) : jwt.MapClaims :=
  match Reference.ParseUnverified tokenString (jwt.IMapClaims ∅) with
  | inl token =>
      match jwt.Token_Claims token with
      | jwt.IMapClaims m => m
      | jwt.IOther _ _ => ∅
      end
  | inr _ => ∅
  end.

(** The date the reference platform reads in a whole number of seconds. *)
Definition date (seconds : Z) : jwt.NumericDate :=
  {| jwt.Time := {| time.UnixNano := seconds * 1000000000 |} |}.

End Sessions.

(** * Properties of [Check] *)

Import atproto appkey.

(** ** The clock comparison *)

(** [time.Until(t) < 0] says that [t] is before the clock, saturation or
    not. *)
Lemma Sub_negative (t u : time.Time) :
  (time.Sub t u <? 0) = time.Before t u.
Proof.
  unfold time.Sub, time.Before, time.minDuration, time.maxDuration.
  destruct t as [a], u as [b]; cbn [time.UnixNano].
  set (lo := - 2 ^ 63). set (hi := 2 ^ 63 - 1).
  assert (Hlo : lo = -9223372036854775808) by reflexivity.
  assert (Hhi : hi = 9223372036854775807) by reflexivity.
  destruct (Z.ltb_spec (a - b) lo); [|destruct (Z.ltb_spec hi (a - b))];
    destruct (Z.ltb_spec a b); try lia;
    first [apply Z.ltb_lt | apply Z.ltb_ge]; lia.
Qed.

(** ** The scope comparison *)

Lemma scope_test (m : jwt.MapClaims) :
  json.eq_string (json.index m "scope") appPass = true
  <-> m !! "scope"%string = Some (json.VString appPass).
Proof.
  unfold json.index, json.eq_string.
  destruct (m !! "scope"%string) as [[| | |v| |]|]; simpl; try (split; congruence).
  rewrite String.eqb_eq. split; congruence.
Qed.

Lemma scope_cases (m : jwt.MapClaims) :
  m !! "scope"%string = Some (json.VString appPass)
  \/ m !! "scope"%string <> Some (json.VString appPass).
Proof.
  destruct (json.eq_string (json.index m "scope") appPass) eqn:E.
  - left. now apply scope_test.
  - right. intros Heq. apply scope_test in Heq. congruence.
Qed.

Lemma scope_test_false (m : jwt.MapClaims) :
  m !! "scope"%string <> Some (json.VString appPass) ->
  json.eq_string (json.index m "scope") appPass = false.
Proof.
  intros Hne. apply not_true_is_false. rewrite scope_test. exact Hne.
Qed.

(** ** What the library's accessor returns *)

Section Expiration.
Context `{jwt.Codec}.

(** No [exp] claim: a nil date and a nil error. *)
Lemma GetExpirationTime_absent (m : jwt.MapClaims) :
  m !! "exp"%string = None ->
  jwt.GetExpirationTime (jwt.IMapClaims m) = (None, None).
Proof. intros Hm. simpl. unfold jwt.parseNumericDate. now rewrite Hm. Qed.

(** An [exp] claim that is not a number: a nil date and an error. *)
Lemma GetExpirationTime_invalid (m : jwt.MapClaims) (v : json.Value) :
  m !! "exp"%string = Some v ->
  (forall f, v <> json.VFloat64 f) ->
  exists e, jwt.GetExpirationTime (jwt.IMapClaims m) = (None, Some e).
Proof.
  intros Hm Hv. simpl. unfold jwt.parseNumericDate. rewrite Hm.
  destruct v; try (eexists; reflexivity).
  now destruct (Hv f).
Qed.

(** A date is returned exactly for a non-zero number. *)
Lemma GetExpirationTime_date (m : jwt.MapClaims) (d : jwt.NumericDate) :
  jwt.GetExpirationTime (jwt.IMapClaims m) = (Some d, None)
  <-> exists f, m !! "exp"%string = Some (json.VFloat64 f)
             /\ PrimFloat.eqb f 0%float = false
             /\ d = jwt.newNumericDateFromSeconds f.
Proof.
  simpl. unfold jwt.parseNumericDate. split.
  - destruct (m !! "exp"%string) as [[| |f| | |]|]; try discriminate.
    destruct (PrimFloat.eqb f 0) eqn:Hz; [discriminate|].
    intros [= <-]. now exists f.
  - intros (f & -> & -> & ->). reflexivity.
Qed.

End Expiration.

(** ** One step of [Check] at a time *)

(** Unfolds the monad: what is left is the nest of tests of the source. *)
Ltac run :=
  unfold Check, load, NumericDate_Time, time_Until, time_Now, panic;
  unfold mbind, Go_bind, mret, Go_ret; simpl.

Section Steps.
Context `{time.Local, jwt.Codec}.

Lemma Check_nil (sess : ptr) (w : World) :
  deref w sess = None ->
  Check sess w = (Panic nil_dereference, w).
Proof. intros Hs. run. now rewrite Hs. Qed.

Lemma Check_access_malformed (sess : ptr) (w : World) s e :
  deref w sess = Some s ->
  malformed (AccessJwt s) e ->
  Check sess w = (Ret (Some (library e)), w).
Proof. intros Hs He. run. rewrite Hs; simpl. now rewrite He. Qed.

Lemma Check_wrong_scope (sess : ptr) (w : World) s m :
  deref w sess = Some s ->
  decodes (AccessJwt s) m ->
  m !! "scope"%string <> Some (json.VString appPass) ->
  Check sess w = (Ret (Some master_credentials_error), w).
Proof.
  intros Hs (tok & Htok & Hm) Hscope. run. rewrite Hs; simpl.
  rewrite Htok, Hm. fold appPass. now rewrite (scope_test_false _ Hscope).
Qed.

Lemma Check_expiration_unreadable (sess : ptr) (w : World) s m p e :
  deref w sess = Some s ->
  decodes (AccessJwt s) m ->
  m !! "scope"%string = Some (json.VString appPass) ->
  jwt.GetExpirationTime (jwt.IMapClaims m) = (p, Some e) ->
  Check sess w = (Ret (Some (library e)), w).
Proof.
  intros Hs (tok & Htok & Hm) Hscope Hexp. run. rewrite Hs; simpl.
  rewrite Htok, Hm. fold appPass. rewrite (proj2 (scope_test m) Hscope); simpl.
  simpl in Hexp. now rewrite Hexp.
Qed.

Lemma Check_expiration_nil (sess : ptr) (w : World) s m :
  deref w sess = Some s ->
  decodes (AccessJwt s) m ->
  m !! "scope"%string = Some (json.VString appPass) ->
  jwt.GetExpirationTime (jwt.IMapClaims m) = (None, None) ->
  Check sess w = (Panic nil_dereference, w).
Proof.
  intros Hs (tok & Htok & Hm) Hscope Hexp. run. rewrite Hs; simpl.
  rewrite Htok, Hm. fold appPass. rewrite (proj2 (scope_test m) Hscope); simpl.
  simpl in Hexp. now rewrite Hexp.
Qed.

Lemma Check_expired (sess : ptr) (w : World) s m d :
  deref w sess = Some s ->
  decodes (AccessJwt s) m ->
  m !! "scope"%string = Some (json.VString appPass) ->
  jwt.GetExpirationTime (jwt.IMapClaims m) = (Some d, None) ->
  time.Before (jwt.Time d) (now w) = true ->
  Check sess w = (Ret (Some (session_expired_error (jwt.Time d))), w).
Proof.
  intros Hs (tok & Htok & Hm) Hscope Hexp Hbefore. run. rewrite Hs; simpl.
  rewrite Htok, Hm. fold appPass. rewrite (proj2 (scope_test m) Hscope); simpl.
  simpl in Hexp. rewrite Hexp; simpl. now rewrite Sub_negative, Hbefore.
Qed.

(** Once the access token has passed, the result is the refresh token's. *)
Lemma Check_refresh (sess : ptr) (w : World) s :
  deref w sess = Some s ->
  access_passes w s ->
  Check sess w =
    (Ret match jwt.ParseUnverified (RefreshJwt s) (jwt.IMapClaims ∅) with
         | inr err => Some (library err)
         | inl token =>
             match jwt.GetExpirationTime (jwt.Token_Claims token) with
             | (_, Some err) => Some (library err)
             | (_, None) => None
             end
         end, w).
Proof.
  intros Hs (m & d & (tok & Htok & Hm) & Hscope & Hexp & Hbefore). run.
  rewrite Hs; simpl. rewrite Htok, Hm. fold appPass.
  rewrite (proj2 (scope_test m) Hscope); simpl.
  simpl in Hexp. rewrite Hexp; simpl. rewrite Sub_negative, Hbefore, Hs.
  destruct (jwt.ParseUnverified (RefreshJwt s) (jwt.IMapClaims ∅)) as [tok'|e]; [|reflexivity].
  now destruct (jwt.GetExpirationTime (jwt.Token_Claims tok')) as [p [e|]].
Qed.

(** A failing access-token check fixes the result, which is an error read
    off the access token and the clock alone. *)
Lemma Check_access_fails (sess : ptr) (w : World) s :
  deref w sess = Some s ->
  access_fails w s ->
  exists err,
    Check sess w = (Ret (Some err), w)
    /\ forall sess' w' s',
         deref w' sess' = Some s' ->
         AccessJwt s' = AccessJwt s ->
         now w' = now w ->
         Check sess' w' = (Ret (Some err), w').
Proof.
  intros Hs [[e He]|(m & Hm & [Hscope|[(p & e & Hexp)|(d & Hexp & Hbefore)]])].
  - exists (library e). split; [now apply (Check_access_malformed sess w s)|].
    intros sess' w' s' Hs' Ha _. apply (Check_access_malformed sess' w' s' e Hs').
    unfold malformed. now rewrite Ha.
  - exists master_credentials_error. split; [now apply (Check_wrong_scope sess w s m)|].
    intros sess' w' s' Hs' Ha _. apply (Check_wrong_scope sess' w' s' m Hs'); [|exact Hscope].
    now rewrite Ha.
  - destruct (scope_cases m) as [Hscope|Hscope].
    + exists (library e). split; [now apply (Check_expiration_unreadable sess w s m p)|].
      intros sess' w' s' Hs' Ha _.
      apply (Check_expiration_unreadable sess' w' s' m p e Hs'); [|exact Hscope|exact Hexp].
      now rewrite Ha.
    + exists master_credentials_error. split; [now apply (Check_wrong_scope sess w s m)|].
      intros sess' w' s' Hs' Ha _. apply (Check_wrong_scope sess' w' s' m Hs'); [|exact Hscope].
      now rewrite Ha.
  - destruct (scope_cases m) as [Hscope|Hscope].
    + exists (session_expired_error (jwt.Time d)).
      split; [now apply (Check_expired sess w s m d)|].
      intros sess' w' s' Hs' Ha Hnow.
      apply (Check_expired sess' w' s' m d Hs'); [|exact Hscope|exact Hexp|].
      * now rewrite Ha.
      * now rewrite Hnow.
    + exists master_credentials_error. split; [now apply (Check_wrong_scope sess w s m)|].
      intros sess' w' s' Hs' Ha _. apply (Check_wrong_scope sess' w' s' m Hs'); [|exact Hscope].
      now rewrite Ha.
Qed.

(** The world after the call is the world before it. *)
Lemma Check_world (sess : ptr) (w : World) : snd (Check sess w) = w.
Proof. run. repeat case_match; simplify_eq/=; reflexivity. Qed.

(** Two calls that read the same token strings, at clocks that place the
    access token's expiration on the same side, have the same outcome. *)
Lemma Check_same_outcome (p1 p2 : ptr) (w1 w2 : World) s1 s2 :
  deref w1 p1 = Some s1 ->
  deref w2 p2 = Some s2 ->
  AccessJwt s1 = AccessJwt s2 ->
  RefreshJwt s1 = RefreshJwt s2 ->
  (forall m d,
      decodes (AccessJwt s1) m ->
      jwt.GetExpirationTime (jwt.IMapClaims m) = (Some d, None) ->
      time.Before (jwt.Time d) (now w1) = time.Before (jwt.Time d) (now w2)) ->
  fst (Check p1 w1) = fst (Check p2 w2).
Proof.
  intros Hs1 Hs2 Ha Hr Hside. run. rewrite Hs1, Hs2; simpl. rewrite <- Ha.
  destruct (jwt.ParseUnverified (AccessJwt s1) (jwt.IMapClaims ∅)) as [tok|e] eqn:Htok;
    [|reflexivity].
  destruct (jwt.Token_Claims tok) as [m|T r] eqn:Hm; [|reflexivity].
  destruct (negb _); [reflexivity|].
  destruct (jwt.GetExpirationTime (jwt.IMapClaims m)) as [[d|] [e|]] eqn:Hexp;
    try reflexivity.
  simpl. rewrite !Sub_negative.
  rewrite <- (Hside m d); [|now exists tok|exact Hexp].
  destruct (time.Before (jwt.Time d) (now w1)); [reflexivity|].
  rewrite Hs1, Hs2; simpl. rewrite <- Hr.
  now repeat case_match.
Qed.

End Steps.

(** ** The sentinel conditions of the returned errors *)

Lemma master_credentials_error_Is (target : errvar) :
  errors_Is master_credentials_error target
  = bool_decide (target = ErrLoginUnauthorized \/ target = ErrMasterCredentials).
Proof. now destruct target. Qed.

Lemma session_expired_error_Is `{time.Local} (t : time.Time) (target : errvar) :
  errors_Is (session_expired_error t) target = bool_decide (target = ErrSessionExpired).
Proof. now destruct target. Qed.

Lemma library_no_sentinel (e : jwt.error) : no_sentinel (library e).
Proof. intros target. reflexivity. Qed.


(** ** The claims *)

Section Claims.
Context `{time.Local, jwt.Codec}.

(** C1. A session whose access token decodes to claims in which [scope] is
    not exactly the string [com.atproto.appPass] (another string, a value
    that is not a string, or no claim at all) makes [Check] return a
    non-nil error that matches both [ErrLoginUnauthorized] and
    [ErrMasterCredentials]. *)
Theorem Check_rejects_master_credentials (sess : ptr) (w : World) s m :
  deref w sess = Some s ->
  decodes (AccessJwt s) m ->
  m !! "scope"%string <> Some (json.VString appPass) ->
  exists err,
    Check sess w = (Ret (Some err), w)
    /\ errors_Is err ErrLoginUnauthorized = true
    /\ errors_Is err ErrMasterCredentials = true.
Proof.
  intros Hs Hm Hscope. exists master_credentials_error.
  split; [now apply (Check_wrong_scope sess w s m) | split; reflexivity].
Qed.


(** C3, as amended. When the access token cannot be decoded, or the access
    token passes the scope and expiration checks and the refresh token
    cannot be decoded, [Check] returns the parser's error, which is non-nil
    and matches none of the three package variables. *)
Theorem Check_malformed_token (sess : ptr) (w : World) s e :
  deref w sess = Some s ->
  malformed (AccessJwt s) e \/ (access_passes w s /\ malformed (RefreshJwt s) e) ->
  Check sess w = (Ret (Some (library e)), w) /\ no_sentinel (library e).
Proof.
  intros Hs [Ha|[Hpass Hr]]; (split; [|apply library_no_sentinel]).
  - now apply (Check_access_malformed sess w s e).
  - rewrite (Check_refresh sess w s Hs Hpass). unfold malformed in Hr. now rewrite Hr.
Qed.

(** C4. A session whose access token has scope [com.atproto.appPass] and an
    expiration that is not before the clock, and whose refresh token
    decodes with an expiration, whatever its value, passes: [Check] returns
    nil. The statement puts no condition on the refresh token's date. *)
Theorem Check_accepts_application_key (sess : ptr) (w : World) s m' d' :
  deref w sess = Some s ->
  access_passes w s ->
  decodes (RefreshJwt s) m' ->
  jwt.GetExpirationTime (jwt.IMapClaims m') = (Some d', None) ->
  Check sess w = (Ret None, w).
Proof.
  intros Hs Hpass (tok & Htok & Hm') Hexp.
  rewrite (Check_refresh sess w s Hs Hpass), Htok, Hm'. now rewrite Hexp.
Qed.

(** C5. [Check] stops at the first failing check, in the order: decoding of
    the access token, scope, expiration of the access token, decoding of
    the refresh token, extraction of the refresh token's expiration. Each
    line below gives the result of the first failure, whatever the later
    checks would say. A wrong scope gives the error of
    [ErrMasterCredentials], which does not match [ErrSessionExpired], be
    the token expired or not; and when an access-token check fails, the
    result is the same for every refresh token. *)
Theorem Check_stops_at_first_failure (sess : ptr) (w : World) s :
  deref w sess = Some s ->
  (forall e, malformed (AccessJwt s) e ->
     Check sess w = (Ret (Some (library e)), w))
  /\ (forall m, decodes (AccessJwt s) m ->
       m !! "scope"%string <> Some (json.VString appPass) ->
       Check sess w = (Ret (Some master_credentials_error), w)
       /\ errors_Is master_credentials_error ErrMasterCredentials = true
       /\ errors_Is master_credentials_error ErrSessionExpired = false)
  /\ (forall m p e, decodes (AccessJwt s) m ->
       m !! "scope"%string = Some (json.VString appPass) ->
       jwt.GetExpirationTime (jwt.IMapClaims m) = (p, Some e) ->
       Check sess w = (Ret (Some (library e)), w))
  /\ (forall m d, decodes (AccessJwt s) m ->
       m !! "scope"%string = Some (json.VString appPass) ->
       jwt.GetExpirationTime (jwt.IMapClaims m) = (Some d, None) ->
       time.Before (jwt.Time d) (now w) = true ->
       Check sess w = (Ret (Some (session_expired_error (jwt.Time d))), w))
  /\ (forall e, access_passes w s ->
       malformed (RefreshJwt s) e ->
       Check sess w = (Ret (Some (library e)), w))
  /\ (forall token p e, access_passes w s ->
       jwt.ParseUnverified (RefreshJwt s) (jwt.IMapClaims ∅) = inl token ->
       jwt.GetExpirationTime (jwt.Token_Claims token) = (p, Some e) ->
       Check sess w = (Ret (Some (library e)), w))
  /\ (access_fails w s ->
       forall sess' w' s',
         deref w' sess' = Some s' ->
         AccessJwt s' = AccessJwt s ->
         now w' = now w ->
         fst (Check sess' w') = fst (Check sess w)).
Proof.
  intros Hs. repeat split.
  - intros e He. now apply (Check_access_malformed sess w s e).
  - now apply (Check_wrong_scope sess w s m).
  - intros m p e Hm Hscope Hexp. now apply (Check_expiration_unreadable sess w s m p e).
  - intros m d Hm Hscope Hexp Hbefore. now apply (Check_expired sess w s m d).
  - intros e Hpass Hr. rewrite (Check_refresh sess w s Hs Hpass).
    unfold malformed in Hr. now rewrite Hr.
  - intros tok p e Hpass Htok Hexp. rewrite (Check_refresh sess w s Hs Hpass), Htok.
    now rewrite Hexp.
  - intros Hfail sess' w' s' Hs' Ha Hnow.
    destruct (Check_access_fails sess w s Hs Hfail) as (err & Hcheck & Hany).
    now rewrite Hcheck, (Hany sess' w' s' Hs' Ha Hnow).
Qed.

(** C6. [Check] is deterministic and idempotent: two calls on sessions
    with identical token strings, at the same clock or at clocks between
    which the access token's expiry status does not change, return the
    same result; and so does a second call made after the first. *)
Theorem Check_deterministic (p1 p2 : ptr) (w1 w2 : World) s1 s2 :
  deref w1 p1 = Some s1 ->
  deref w2 p2 = Some s2 ->
  AccessJwt s1 = AccessJwt s2 ->
  RefreshJwt s1 = RefreshJwt s2 ->
  (forall m d,
      decodes (AccessJwt s1) m ->
      jwt.GetExpirationTime (jwt.IMapClaims m) = (Some d, None) ->
      time.Before (jwt.Time d) (now w1) = time.Before (jwt.Time d) (now w2)) ->
  fst (Check p1 w1) = fst (Check p2 w2)
  /\ Check p1 (snd (Check p1 w1)) = Check p1 w1.
Proof.
  intros Hs1 Hs2 Ha Hr Hside. split.
  - now apply (Check_same_outcome p1 p2 w1 w2 s1 s2).
  - now rewrite Check_world.
Qed.

(** C8. [Check] does not write: whatever the session and the outcome
    (nil, an error or a panic), the heap, with every field of every
    session in it, and the clock are after the call what they were
    before. *)
Theorem Check_frame (sess : ptr) (w : World) :
  snd (Check sess w) = w
  /\ deref (snd (Check sess w)) sess = deref w sess.
Proof. split; now rewrite Check_world. Qed.

(** C9. The result depends on the session through [AccessJwt] and
    [RefreshJwt] only: two non-nil sessions that agree on both, checked at
    the same clock, get the same result, whatever their other fields. *)
Theorem Check_reads_tokens_only (p1 p2 : ptr) (w1 w2 : World) s1 s2 :
  deref w1 p1 = Some s1 ->
  deref w2 p2 = Some s2 ->
  AccessJwt s1 = AccessJwt s2 ->
  RefreshJwt s1 = RefreshJwt s2 ->
  now w1 = now w2 ->
  fst (Check p1 w1) = fst (Check p2 w2).
Proof.
  intros Hs1 Hs2 Ha Hr Hnow.
  apply (Check_same_outcome p1 p2 w1 w2 s1 s2); try assumption.
  intros m d _ _. now rewrite Hnow.
Qed.

(** C7, as amended. With an access token that passes the scope and
    expiration checks and a refresh token that decodes: an [exp] claim
    that is present and is not a number makes [Check] return a non-nil
    error; an absent [exp] claim makes it return nil, the presence of the
    refresh token's expiration not being checked. *)
Theorem Check_refresh_expiration (sess : ptr) (w : World) s m' :
  deref w sess = Some s ->
  access_passes w s ->
  decodes (RefreshJwt s) m' ->
  (forall v, m' !! "exp"%string = Some v ->
     (forall f, v <> json.VFloat64 f) ->
     exists e, Check sess w = (Ret (Some (library e)), w))
  /\ (m' !! "exp"%string = None -> Check sess w = (Ret None, w)).
Proof.
  intros Hs Hpass (tok & Htok & Hm'). rewrite (Check_refresh sess w s Hs Hpass), Htok, Hm'.
  split.
  - intros v Hv Hnum. destruct (GetExpirationTime_invalid m' v Hv Hnum) as [e He].
    exists e. now rewrite He.
  - intros Hv. now rewrite (GetExpirationTime_absent m' Hv).
Qed.

End Claims.

(** ** The claims on the reference platform

    Each statement below runs [Check] on token strings of [Sessions]. *)

Import Reference Sessions.

Ltac decoded := eexists; split; vm_compute; reflexivity.

Lemma access_ok_passes (refresh : string) :
  access_passes (world access_ok refresh) (session access_ok refresh).
Proof.
  exists (claims access_ok), (date 1700007200).
  split; [decoded|]. repeat split; vm_compute; reflexivity.
Qed.

(** C1 at two sessions: scope [com.atproto.access], and no scope. *)
Lemma Check_rejects_master_credentials_witness :
  (claims access_master !! "scope"%string = Some (json.VString "com.atproto.access")
   /\ exists err,
        Check here (world access_master refresh_ok)
        = (Ret (Some err), world access_master refresh_ok)
        /\ errors_Is err ErrLoginUnauthorized = true
        /\ errors_Is err ErrMasterCredentials = true)
  /\ (claims access_noscope !! "scope"%string = None
      /\ exists err,
           Check here (world access_noscope refresh_ok)
           = (Ret (Some err), world access_noscope refresh_ok)
           /\ errors_Is err ErrLoginUnauthorized = true
           /\ errors_Is err ErrMasterCredentials = true).
Proof.
  split; (split; [vm_compute; reflexivity|]).
  - apply (Check_rejects_master_credentials here (world access_master refresh_ok)
             (session access_master refresh_ok) (claims access_master)).
    + reflexivity.
    + decoded.
    + vm_compute. discriminate.
  - apply (Check_rejects_master_credentials here (world access_noscope refresh_ok)
             (session access_noscope refresh_ok) (claims access_noscope)).
    + reflexivity.
    + decoded.
    + vm_compute. discriminate.
Defined.


(** C3 as stated fails: the refresh token is not a token, yet the error
    returned is the one of the access token's scope and matches two of the
    package variables. *)
Lemma Check_malformed_refresh_master_scope :
  (exists e, malformed (RefreshJwt (session access_master refresh_broken)) e)
  /\ Check here (world access_master refresh_broken)
     = (Ret (Some master_credentials_error), world access_master refresh_broken)
  /\ errors_Is master_credentials_error ErrLoginUnauthorized = true
  /\ errors_Is master_credentials_error ErrMasterCredentials = true.
Proof.
  split; [eexists; vm_compute; reflexivity|].
  split; [vm_compute; reflexivity|]. split; reflexivity.
Qed.

(** C3, as amended, at a broken access token and at a broken refresh token
    behind a good access token. *)
Lemma Check_malformed_token_witness :
  (exists e,
     Check here (world refresh_broken refresh_ok)
     = (Ret (Some (library e)), world refresh_broken refresh_ok)
     /\ no_sentinel (library e))
  /\ (exists e,
        Check here (world access_ok refresh_broken)
        = (Ret (Some (library e)), world access_ok refresh_broken)
        /\ no_sentinel (library e)).
Proof.
  split;
    exists (jwt.newError "token contains an invalid number of segments"
              (jwt.var jwt.ErrTokenMalformed) []).
  - apply (Check_malformed_token here (world refresh_broken refresh_ok)
             (session refresh_broken refresh_ok)).
    + reflexivity.
    + left. vm_compute. reflexivity.
  - apply (Check_malformed_token here (world access_ok refresh_broken)
             (session access_ok refresh_broken)).
    + reflexivity.
    + right. split; [apply access_ok_passes | vm_compute; reflexivity].
Defined.

(** C4 at a refresh token whose expiration is years before the clock. *)
Lemma Check_accepts_application_key_witness :
  time.Before (jwt.Time (date 1600000000)) (now (world access_ok refresh_past)) = true
  /\ Check here (world access_ok refresh_past) = (Ret None, world access_ok refresh_past).
Proof.
  split; [reflexivity|].
  apply (Check_accepts_application_key here (world access_ok refresh_past)
           (session access_ok refresh_past) (claims refresh_past) (date 1600000000)).
  - reflexivity.
  - apply access_ok_passes.
  - decoded.
  - vm_compute. reflexivity.
Defined.

(** C5 at an access token with the wrong scope that is also expired, next
    to a broken refresh token: the scope decides. *)
Lemma Check_stops_at_first_failure_witness :
  jwt.GetExpirationTime (jwt.IMapClaims (claims access_master_expired))
  = (Some (date 1700000000), None)
  /\ time.Before (jwt.Time (date 1700000000)) clock = true
  /\ Check here (world access_master_expired refresh_broken)
     = (Ret (Some master_credentials_error), world access_master_expired refresh_broken)
  /\ errors_Is master_credentials_error ErrMasterCredentials = true
  /\ errors_Is master_credentials_error ErrSessionExpired = false.
Proof.
  split; [vm_compute; reflexivity|]. split; [reflexivity|].
  destruct (Check_stops_at_first_failure here (world access_master_expired refresh_broken)
              (session access_master_expired refresh_broken) eq_refl)
    as (_ & Hscope & _).
  apply (Hscope (claims access_master_expired)).
  - decoded.
  - vm_compute. discriminate.
Defined.

(** C6 at one session checked at the clock and a minute later. *)
Lemma Check_deterministic_witness :
  fst (Check here (world access_ok refresh_ok))
  = fst (Check here (later (world access_ok refresh_ok)))
  /\ Check here (snd (Check here (world access_ok refresh_ok)))
     = Check here (world access_ok refresh_ok).
Proof.
  apply (Check_deterministic here here (world access_ok refresh_ok)
           (later (world access_ok refresh_ok))
           (session access_ok refresh_ok) (session access_ok refresh_ok));
    try reflexivity.
  intros m d (tok & Htok & Hm) Hexp.
  vm_compute in Htok. injection Htok as <-.
  simpl in Hm. injection Hm as <-.
  vm_compute in Hexp. injection Hexp as <-.
  reflexivity.
Defined.

(** C7 as stated fails: the refresh token has no [exp] claim and [Check]
    returns nil. *)
Lemma Check_refresh_without_expiration :
  decodes (RefreshJwt (session access_ok refresh_noexp)) (claims refresh_noexp)
  /\ claims refresh_noexp !! "exp"%string = None
  /\ access_passes (world access_ok refresh_noexp) (session access_ok refresh_noexp)
  /\ Check here (world access_ok refresh_noexp) = (Ret None, world access_ok refresh_noexp).
Proof.
  split; [decoded|]. split; [vm_compute; reflexivity|].
  split; [apply access_ok_passes | vm_compute; reflexivity].
Qed.

(** C7, as amended, at a refresh token whose [exp] is a string. *)
Lemma Check_refresh_expiration_witness :
  claims refresh_badexp !! "exp"%string = Some (json.VString "never")
  /\ exists e,
       Check here (world access_ok refresh_badexp)
       = (Ret (Some (library e)), world access_ok refresh_badexp).
Proof.
  split; [vm_compute; reflexivity|].
  destruct (Check_refresh_expiration here (world access_ok refresh_badexp)
              (session access_ok refresh_badexp) (claims refresh_badexp) eq_refl
              (access_ok_passes refresh_badexp)) as [Hinvalid _]; [decoded|].
  apply (Hinvalid (json.VString "never")); [vm_compute; reflexivity | discriminate].
Defined.

(** C9 at two accounts' records that carry the same two tokens. *)
Lemma Check_reads_tokens_only_witness :
  session access_ok refresh_ok <> other_session access_ok refresh_ok
  /\ fst (Check here (world access_ok refresh_ok))
     = fst (Check there (other_world access_ok refresh_ok)).
Proof.
  split; [discriminate|].
  apply (Check_reads_tokens_only here there (world access_ok refresh_ok)
           (other_world access_ok refresh_ok)
           (session access_ok refresh_ok) (other_session access_ok refresh_ok));
    reflexivity.
Defined.

(** C10 fails on the code: the access token has the scope of an
    application key and no [exp] claim; the accessor returns a nil date
    with a nil error, and [Check] panics on [current.Time]. *)
Theorem Check_panics_without_expiration :
  decodes (AccessJwt (session access_noexp refresh_ok)) (claims access_noexp)
  /\ claims access_noexp !! "scope"%string = Some (json.VString appPass)
  /\ claims access_noexp !! "exp"%string = None
  /\ jwt.GetExpirationTime (jwt.IMapClaims (claims access_noexp)) = (None, None)
  /\ Check here (world access_noexp refresh_ok)
     = (Panic nil_dereference, world access_noexp refresh_ok).
Proof.
  split; [decoded|]. repeat split; vm_compute; reflexivity.
Qed.

(** * Further properties of [Check]

    What the source shows beyond the claims: when exactly [Check] returns
    nil, each sentinel error or panics, which claims of the tokens it
    reads, and how its result moves with the clock. *)

(** ** Vocabulary *)

Section FurtherVocabulary.
Context `{jwt.Codec}.

(** The refresh token of [s] passes: it decodes and the accessor of its
    expiration reports no error (lines 64-73). *)
Definition refresh_passes (s : ServerCreateSession_Output) : Prop :=
  exists token p,
    jwt.ParseUnverified (RefreshJwt s) (jwt.IMapClaims ∅) = inl token
    /\ jwt.GetExpirationTime (jwt.Token_Claims token) = (p, None).

(** The claims carry no usable expiration: no [exp] claim, or the number
    zero. *)
Definition exp_missing (m : jwt.MapClaims) : Prop :=
  m !! "exp"%string = None
  \/ exists f, m !! "exp"%string = Some (json.VFloat64 f) /\ PrimFloat.eqb f 0%float = true.

End FurtherVocabulary.

(** More sessions for the reference platform. *)

Module MoreSessions.

Import Sessions.

(** aud did:web:bsky.social, scope com.atproto.appPass, sub
    did:plc:xyz789, iat 1700000100, exp 1700007200: the scope and the
    expiration of [access_ok], the rest different. *)
Definition access_other : string :=
  header +:+ ".eyJhdWQiOiJkaWQ6d2ViOmJza3kuc29jaWFsIiwic2NvcGUiOiJjb20uYXRwcm90by5hcHBQYXNzIiwic3ViIjoiZGlkOnBsYzp4eXo3ODkiLCJpYXQiOjE3MDAwMDAxMDAsImV4cCI6MTcwMDAwNzIwMH0.c2ln".

(** scope com.atproto.appPass, sub did:plc:xyz789, jti n7,
    exp 1707776000: the expiration of [refresh_ok], the rest different. *)
Definition refresh_other : string :=
  header +:+ ".eyJzY29wZSI6ImNvbS5hdHByb3RvLmFwcFBhc3MiLCJzdWIiOiJkaWQ6cGxjOnh5ejc4OSIsImp0aSI6Im43IiwiZXhwIjoxNzA3Nzc2MDAwfQ.c2ln".

(** scope com.atproto.appPass, exp the string soon. *)
Definition access_badexp : string :=
  header +:+ ".eyJzY29wZSI6ImNvbS5hdHByb3RvLmFwcFBhc3MiLCJleHAiOiJzb29uIn0.c2ln".

(** scope com.atproto.appPass, exp 0. *)
Definition access_zeroexp : string :=
  header +:+ ".eyJzY29wZSI6ImNvbS5hdHByb3RvLmFwcFBhc3MiLCJleHAiOjB9.c2ln".

(** The heap of [world] with the clock at a given second. *)
Definition world_at (seconds : Z) (access refresh : string) : World :=
  {| mem := mem (world access refresh);
     now := {| time.UnixNano := seconds * 1000000000 |} |}.

End MoreSessions.

(** ** The accessor reads one claim *)

Section Accessor.
Context `{jwt.Codec}.

Lemma GetExpirationTime_nil (m : jwt.MapClaims) :
  jwt.GetExpirationTime (jwt.IMapClaims m) = (None, None) <-> exp_missing m.
Proof.
  simpl. unfold jwt.parseNumericDate, exp_missing. split.
  - destruct (m !! "exp"%string) as [[| |f| | |]|] eqn:Hm; try discriminate; [|now left].
    destruct (PrimFloat.eqb f 0) eqn:Hz; [|discriminate].
    intros _. right. now exists f.
  - intros [->|(f & -> & ->)]; reflexivity.
Qed.

Lemma GetExpirationTime_same_exp (m1 m2 : jwt.MapClaims) :
  m1 !! "exp"%string = m2 !! "exp"%string ->
  jwt.GetExpirationTime (jwt.IMapClaims m1) = jwt.GetExpirationTime (jwt.IMapClaims m2).
Proof. intros Heq. simpl. unfold jwt.parseNumericDate. now rewrite Heq. Qed.

End Accessor.

(** ** Every path of [Check] *)

Section Paths.
Context `{time.Local, jwt.Codec}.

(** The parser is a function: a token string decodes to one claims set. *)
Lemma decodes_functional (tokenString : string) (m1 m2 : jwt.MapClaims) :
  decodes tokenString m1 -> decodes tokenString m2 -> m1 = m2.
Proof.
  intros (t1 & H1 & Hm1) (t2 & H2 & Hm2). rewrite H1 in H2. injection H2 as <-.
  rewrite Hm1 in Hm2. now injection Hm2.
Qed.

(** The seven ways through the body, each with its result. *)
Lemma Check_paths (sess : ptr) (w : World) s :
  deref w sess = Some s ->
  (exists e, malformed (AccessJwt s) e
             /\ Check sess w = (Ret (Some (library e)), w))
  \/ (exists token T r,
        jwt.ParseUnverified (AccessJwt s) (jwt.IMapClaims ∅) = inl token
        /\ jwt.Token_Claims token = jwt.IOther T r
        /\ Check sess w = (Ret (Some (fmtError ("unexpected type for claims: " +:+ T))), w))
  \/ (exists m, decodes (AccessJwt s) m
        /\ m !! "scope"%string <> Some (json.VString appPass)
        /\ Check sess w = (Ret (Some master_credentials_error), w))
  \/ (exists m p e, decodes (AccessJwt s) m
        /\ m !! "scope"%string = Some (json.VString appPass)
        /\ jwt.GetExpirationTime (jwt.IMapClaims m) = (p, Some e)
        /\ Check sess w = (Ret (Some (library e)), w))
  \/ (exists m, decodes (AccessJwt s) m
        /\ m !! "scope"%string = Some (json.VString appPass)
        /\ jwt.GetExpirationTime (jwt.IMapClaims m) = (None, None)
        /\ Check sess w = (Panic nil_dereference, w))
  \/ (exists m d, decodes (AccessJwt s) m
        /\ m !! "scope"%string = Some (json.VString appPass)
        /\ jwt.GetExpirationTime (jwt.IMapClaims m) = (Some d, None)
        /\ time.Before (jwt.Time d) (now w) = true
        /\ Check sess w = (Ret (Some (session_expired_error (jwt.Time d))), w))
  \/ (access_passes w s
      /\ Check sess w =
         (Ret match jwt.ParseUnverified (RefreshJwt s) (jwt.IMapClaims ∅) with
              | inr err => Some (library err)
              | inl token =>
                  match jwt.GetExpirationTime (jwt.Token_Claims token) with
                  | (_, Some err) => Some (library err)
                  | (_, None) => None
                  end
              end, w)).
Proof.
  intros Hs.
  destruct (jwt.ParseUnverified (AccessJwt s) (jwt.IMapClaims ∅)) as [tok|e] eqn:Htok.
  2:{ left. exists e. split; [exact Htok|]. now apply (Check_access_malformed sess w s e). }
  right. destruct (jwt.Token_Claims tok) as [m|T r] eqn:Hm.
  2:{ left. exists tok, T, r. repeat split; try assumption.
      run. rewrite Hs; simpl. now rewrite Htok, Hm. }
  right. assert (Hdec : decodes (AccessJwt s) m) by now exists tok.
  destruct (scope_cases m) as [Hscope|Hscope].
  2:{ left. exists m. repeat split; try assumption.
      now apply (Check_wrong_scope sess w s m). }
  right. destruct (jwt.GetExpirationTime (jwt.IMapClaims m)) as [p [e|]] eqn:Hexp.
  { left. exists m, p, e. repeat split; try assumption.
    now apply (Check_expiration_unreadable sess w s m p e). }
  right. destruct p as [d|].
  2:{ left. exists m. repeat split; try assumption.
      now apply (Check_expiration_nil sess w s m). }
  right. destruct (time.Before (jwt.Time d) (now w)) eqn:Hbefore.
  { left. exists m, d. repeat split; try assumption.
    now apply (Check_expired sess w s m d). }
  right. assert (Hpass : access_passes w s) by (exists m, d; repeat split; assumption).
  split; [exact Hpass | now apply (Check_refresh sess w s)].
Qed.

End Paths.

(** ** When [Check] returns nil *)

Section Further.
Context `{time.Local, jwt.Codec}.

Lemma Check_nil_intro (sess : ptr) (w : World) s :
  deref w sess = Some s ->
  access_passes w s ->
  refresh_passes s ->
  Check sess w = (Ret None, w).
Proof.
  intros Hs Hpass (tok & p & Htok & Hexp).
  rewrite (Check_refresh sess w s Hs Hpass), Htok. now rewrite Hexp.
Qed.

Lemma Check_nil_inv (sess : ptr) (w : World) s :
  deref w sess = Some s ->
  Check sess w = (Ret None, w) ->
  access_passes w s /\ refresh_passes s.
Proof.
  intros Hs Hnil.
  destruct (Check_paths sess w s Hs)
    as [(e & _ & Hc)|[(tok & T & r & _ & _ & Hc)|[(m & _ & _ & Hc)
       |[(m & p & e & _ & _ & _ & Hc)|[(m & _ & _ & _ & Hc)
       |[(m & d & _ & _ & _ & _ & Hc)|[Hpass Hc]]]]]]];
    rewrite Hc in Hnil; try discriminate.
  split; [exact Hpass|].
  destruct (jwt.ParseUnverified (RefreshJwt s) (jwt.IMapClaims ∅)) as [tok|e] eqn:Htok;
    [|discriminate].
  destruct (jwt.GetExpirationTime (jwt.Token_Claims tok)) as [p [e|]] eqn:Hexp;
    [discriminate|].
  now exists tok, p.
Qed.

(** X1. For a non-nil session, [Check] returns nil exactly when the access
    token decodes with the scope string [com.atproto.appPass] and an
    extracted expiration that is not before the clock, and the refresh
    token decodes and the accessor of its expiration reports no error. *)
Theorem Check_returns_nil_iff (sess : ptr) (w : World) s :
  deref w sess = Some s ->
  Check sess w = (Ret None, w) <-> access_passes w s /\ refresh_passes s.
Proof.
  intros Hs. split.
  - now apply Check_nil_inv.
  - intros [Hpass Hrefresh]. now apply (Check_nil_intro sess w s).
Qed.

(** X2. Whatever error [Check] returns, it matches [ErrLoginUnauthorized]
    exactly when it matches [ErrMasterCredentials], and it never matches
    both [ErrMasterCredentials] and [ErrSessionExpired]. *)
Theorem Check_error_sentinels (sess : ptr) (w w' : World) err :
  Check sess w = (Ret (Some err), w') ->
  errors_Is err ErrLoginUnauthorized = errors_Is err ErrMasterCredentials
  /\ errors_Is err ErrMasterCredentials && errors_Is err ErrSessionExpired = false.
Proof.
  intros Herr. destruct (deref w sess) as [s|] eqn:Hs.
  2:{ rewrite (Check_nil sess w Hs) in Herr. discriminate. }
  destruct (Check_paths sess w s Hs)
    as [(e & _ & Hc)|[(tok & T & r & _ & _ & Hc)|[(m & _ & _ & Hc)
       |[(m & p & e & _ & _ & _ & Hc)|[(m & _ & _ & _ & Hc)
       |[(m & d & _ & _ & _ & _ & Hc)|[_ Hc]]]]]]];
    rewrite Hc in Herr; try discriminate;
    try (injection Herr as <- _; split; reflexivity).
  destruct (jwt.ParseUnverified (RefreshJwt s) (jwt.IMapClaims ∅)) as [tok|e];
    [destruct (jwt.GetExpirationTime (jwt.Token_Claims tok)) as [p [e|]]|];
    try discriminate; injection Herr as <- _; split; reflexivity.
Qed.

(** X3. For a non-nil session, [Check] returns an error that matches
    [ErrMasterCredentials] exactly when the access token decodes and its
    [scope] claim is not the string [com.atproto.appPass]. *)
Theorem Check_master_credentials_iff (sess : ptr) (w : World) s :
  deref w sess = Some s ->
  (exists err, Check sess w = (Ret (Some err), w)
               /\ errors_Is err ErrMasterCredentials = true)
  <-> exists m, decodes (AccessJwt s) m
                /\ m !! "scope"%string <> Some (json.VString appPass).
Proof.
  intros Hs. split.
  - intros (err & Herr & His).
    destruct (Check_paths sess w s Hs)
      as [(e & _ & Hc)|[(tok & T & r & _ & _ & Hc)|[(m & Hm & Hscope & Hc)
         |[(m & p & e & _ & _ & _ & Hc)|[(m & _ & _ & _ & Hc)
         |[(m & d & _ & _ & _ & _ & Hc)|[_ Hc]]]]]]];
      rewrite Hc in Herr; try discriminate;
      try (injection Herr as <-; discriminate).
    + now exists m.
    + destruct (jwt.ParseUnverified (RefreshJwt s) (jwt.IMapClaims ∅)) as [tok|e];
        [destruct (jwt.GetExpirationTime (jwt.Token_Claims tok)) as [p [e|]]|];
        try discriminate; injection Herr as <-; discriminate.
  - intros (m & Hm & Hscope). exists master_credentials_error.
    split; [now apply (Check_wrong_scope sess w s m) | reflexivity].
Qed.

(** X4. For a non-nil session, [Check] returns an error that matches
    [ErrSessionExpired] exactly when the access token decodes with the
    scope string [com.atproto.appPass] and an extracted expiration that is
    strictly before the clock. *)
Theorem Check_session_expired_iff (sess : ptr) (w : World) s :
  deref w sess = Some s ->
  (exists err, Check sess w = (Ret (Some err), w)
               /\ errors_Is err ErrSessionExpired = true)
  <-> exists m d, decodes (AccessJwt s) m
                  /\ m !! "scope"%string = Some (json.VString appPass)
                  /\ jwt.GetExpirationTime (jwt.IMapClaims m) = (Some d, None)
                  /\ time.Before (jwt.Time d) (now w) = true.
Proof.
  intros Hs. split.
  - intros (err & Herr & His).
    destruct (Check_paths sess w s Hs)
      as [(e & _ & Hc)|[(tok & T & r & _ & _ & Hc)|[(m & _ & _ & Hc)
         |[(m & p & e & _ & _ & _ & Hc)|[(m & _ & _ & _ & Hc)
         |[(m & d & Hm & Hscope & Hexp & Hbefore & Hc)|[_ Hc]]]]]]];
      rewrite Hc in Herr; try discriminate;
      try (injection Herr as <-; discriminate).
    + now exists m, d.
    + destruct (jwt.ParseUnverified (RefreshJwt s) (jwt.IMapClaims ∅)) as [tok|e];
        [destruct (jwt.GetExpirationTime (jwt.Token_Claims tok)) as [p [e|]]|];
        try discriminate; injection Herr as <-; discriminate.
  - intros (m & d & Hm & Hscope & Hexp & Hbefore).
    exists (session_expired_error (jwt.Time d)).
    split; [now apply (Check_expired sess w s m d) | reflexivity].
Qed.

(** X5. [Check] panics exactly when the session pointer is nil, or the
    access token decodes with the scope string [com.atproto.appPass] and
    carries no [exp] claim or the number zero as its [exp] claim; the
    panic is the nil-pointer dereference. *)
Theorem Check_panics_iff (sess : ptr) (w : World) :
  (exists msg, fst (Check sess w) = Panic msg)
  <-> deref w sess = None
      \/ exists s m, deref w sess = Some s
                     /\ decodes (AccessJwt s) m
                     /\ m !! "scope"%string = Some (json.VString appPass)
                     /\ exp_missing m.
Proof.
  split.
  - intros [msg Hpanic]. destruct (deref w sess) as [s|] eqn:Hs; [right|now left].
    destruct (Check_paths sess w s Hs)
      as [(e & _ & Hc)|[(tok & T & r & _ & _ & Hc)|[(m & _ & _ & Hc)
         |[(m & p & e & _ & _ & _ & Hc)|[(m & Hm & Hscope & Hexp & Hc)
         |[(m & d & _ & _ & _ & _ & Hc)|[_ Hc]]]]]]];
      rewrite Hc in Hpanic; try discriminate.
    exists s, m. repeat split; try assumption. now apply GetExpirationTime_nil.
  - intros [Hs|(s & m & Hs & Hm & Hscope & Hexp)]; exists nil_dereference.
    + now rewrite (Check_nil sess w Hs).
    + apply GetExpirationTime_nil in Hexp.
      now rewrite (Check_expiration_nil sess w s m Hs Hm Hscope Hexp).
Qed.

(** X6. The expiry test is strict: an access token whose expiration is the
    very instant of the clock is not expired, and with a refresh token
    that passes [Check] returns nil. *)
Theorem Check_expiration_at_clock (sess : ptr) (w : World) s m d :
  deref w sess = Some s ->
  decodes (AccessJwt s) m ->
  m !! "scope"%string = Some (json.VString appPass) ->
  jwt.GetExpirationTime (jwt.IMapClaims m) = (Some d, None) ->
  jwt.Time d = now w ->
  refresh_passes s ->
  Check sess w = (Ret None, w).
Proof.
  intros Hs Hm Hscope Hexp Hnow Hrefresh.
  apply (Check_nil_intro sess w s Hs); [|exact Hrefresh].
  exists m, d. repeat split; try assumption.
  rewrite Hnow. unfold time.Before. apply Z.ltb_irrefl.
Qed.

(** X7. Of the access token's claims [Check] reads [scope] and [exp], of
    the refresh token's claims [exp]: two sessions whose tokens decode and
    agree on these three claims get the same result at the same clock,
    whatever else the tokens say. *)
Theorem Check_reads_scope_and_exp (p1 p2 : ptr) (w1 w2 : World) s1 s2
    (a1 a2 r1 r2 : jwt.MapClaims) :
  deref w1 p1 = Some s1 ->
  deref w2 p2 = Some s2 ->
  now w1 = now w2 ->
  decodes (AccessJwt s1) a1 ->
  decodes (AccessJwt s2) a2 ->
  decodes (RefreshJwt s1) r1 ->
  decodes (RefreshJwt s2) r2 ->
  a1 !! "scope"%string = a2 !! "scope"%string ->
  a1 !! "exp"%string = a2 !! "exp"%string ->
  r1 !! "exp"%string = r2 !! "exp"%string ->
  fst (Check p1 w1) = fst (Check p2 w2).
Proof.
  intros Hs1 Hs2 Hnow (ta1 & Hta1 & Ha1) (ta2 & Hta2 & Ha2)
    (tr1 & Htr1 & Hr1) (tr2 & Htr2 & Hr2) Hscope Hexp Hrexp.
  run. rewrite Hs1, Hs2; simpl. rewrite Hta1, Hta2, Ha1, Ha2.
  unfold json.index. rewrite Hscope.
  destruct (negb _); [reflexivity|].
  fold (jwt.GetExpirationTime (jwt.IMapClaims a1)).
  fold (jwt.GetExpirationTime (jwt.IMapClaims a2)).
  rewrite (GetExpirationTime_same_exp a1 a2 Hexp).
  destruct (jwt.GetExpirationTime (jwt.IMapClaims a2)) as [[d|] [e|]]; try reflexivity.
  simpl. rewrite Hnow.
  destruct (time.Sub (jwt.Time d) (now w2) <? 0); [reflexivity|].
  rewrite Hs1, Hs2; simpl. rewrite Htr1, Htr2, Hr1, Hr2.
  rewrite (GetExpirationTime_same_exp r1 r2 Hrexp).
  now destruct (jwt.GetExpirationTime (jwt.IMapClaims r2)) as [p [e|]].
Qed.

(** X8. An access token with the scope string [com.atproto.appPass] whose
    [exp] claim is present and is not a number makes [Check] return the
    library's invalid-type error, with the text
    [invalid type for claim: exp is invalid]; the error matches none of the
    three package variables, and the refresh token is not looked at. *)
Theorem Check_access_expiration_invalid (sess : ptr) (w : World) s m v :
  deref w sess = Some s ->
  decodes (AccessJwt s) m ->
  m !! "scope"%string = Some (json.VString appPass) ->
  m !! "exp"%string = Some v ->
  (forall f, v <> json.VFloat64 f) ->
  exists err,
    Check sess w = (Ret (Some err), w)
    /\ err = library (jwt.newError "exp is invalid" (jwt.var jwt.ErrInvalidType) [])
    /\ Error err = "invalid type for claim: exp is invalid"%string
    /\ no_sentinel err.
Proof.
  intros Hs Hm Hscope Hv Hnum. eexists. split; [|split; [reflexivity|]].
  - apply (Check_expiration_unreadable sess w s m None _ Hs Hm Hscope).
    simpl. unfold jwt.parseNumericDate. rewrite Hv.
    destruct v; try reflexivity. now destruct (Hnum f).
  - split; [reflexivity | apply library_no_sentinel].
Qed.

(** X9. The result moves with the clock in one direction only: a session
    reported expired stays expired, with the same error, at every later
    clock; and a session accepted at some clock is accepted at every
    earlier one. *)
Theorem Check_expiry_monotone (sess : ptr) (w w' : World) s :
  deref w sess = Some s ->
  deref w' sess = Some s ->
  time.UnixNano (now w) <= time.UnixNano (now w') ->
  (forall err, Check sess w = (Ret (Some err), w) ->
               errors_Is err ErrSessionExpired = true ->
               Check sess w' = (Ret (Some err), w'))
  /\ (Check sess w' = (Ret None, w') -> Check sess w = (Ret None, w)).
Proof.
  intros Hs Hs' Hle. split.
  - intros err Herr His.
    destruct (Check_paths sess w s Hs)
      as [(e & _ & Hc)|[(tok & T & r & _ & _ & Hc)|[(m & _ & _ & Hc)
         |[(m & p & e & _ & _ & _ & Hc)|[(m & _ & _ & _ & Hc)
         |[(m & d & Hm & Hscope & Hexp & Hbefore & Hc)|[_ Hc]]]]]]];
      rewrite Hc in Herr; try discriminate;
      try (injection Herr as <-; discriminate).
    + injection Herr as <-.
      apply (Check_expired sess w' s m d Hs' Hm Hscope Hexp).
      unfold time.Before in *. apply Z.ltb_lt in Hbefore. apply Z.ltb_lt. lia.
    + destruct (jwt.ParseUnverified (RefreshJwt s) (jwt.IMapClaims ∅)) as [tok|e];
        [destruct (jwt.GetExpirationTime (jwt.Token_Claims tok)) as [p [e|]]|];
        try discriminate; injection Herr as <-; discriminate.
  - intros Hnil.
    destruct (Check_nil_inv sess w' s Hs' Hnil)
      as [(m & d & Hm & Hscope & Hexp & Hbefore) Hrefresh].
    apply (Check_nil_intro sess w s Hs); [|exact Hrefresh].
    exists m, d. repeat split; try assumption.
    unfold time.Before in *. apply Z.ltb_ge in Hbefore. apply Z.ltb_ge. lia.
Qed.

(** X10. The refresh token need not be a refresh token: a session that
    carries its passing access token in both fields is accepted. *)
Theorem Check_same_token_twice (sess : ptr) (w : World) s :
  deref w sess = Some s ->
  access_passes w s ->
  RefreshJwt s = AccessJwt s ->
  Check sess w = (Ret None, w).
Proof.
  intros Hs Hpass Hsame. apply (Check_nil_intro sess w s Hs Hpass).
  destruct Hpass as (m & d & (tok & Htok & Hm) & _ & Hexp & _).
  exists tok, (Some d). rewrite Hsame, Hm. now split.
Qed.

End Further.

(** ** The further properties on the reference platform *)

Import MoreSessions.

(** A refresh token that decodes to claims whose expiration reads without
    error passes. *)
Lemma refresh_passes_decodes `{jwt.Codec} (s : ServerCreateSession_Output) m p :
  decodes (RefreshJwt s) m ->
  jwt.GetExpirationTime (jwt.IMapClaims m) = (p, None) ->
  refresh_passes s.
Proof.
  intros (tok & Htok & Hm) Hexp. exists tok, p. now rewrite Hm.
Qed.

(** X1 at the accepted session. *)
Lemma Check_returns_nil_iff_witness :
  Check here (world access_ok refresh_ok) = (Ret None, world access_ok refresh_ok)
  <-> access_passes (world access_ok refresh_ok) (session access_ok refresh_ok)
      /\ refresh_passes (session access_ok refresh_ok).
Proof.
  apply (Check_returns_nil_iff here (world access_ok refresh_ok)
           (session access_ok refresh_ok)).
  reflexivity.
Defined.

(** X2 at the error of a master password. *)
Lemma Check_error_sentinels_witness :
  errors_Is master_credentials_error ErrLoginUnauthorized
  = errors_Is master_credentials_error ErrMasterCredentials
  /\ errors_Is master_credentials_error ErrMasterCredentials
     && errors_Is master_credentials_error ErrSessionExpired = false.
Proof.
  apply (Check_error_sentinels here (world access_master refresh_ok)
           (world access_master refresh_ok) master_credentials_error).
  vm_compute. reflexivity.
Defined.

(** X3 at a master password's session. *)
Lemma Check_master_credentials_iff_witness :
  (exists err, Check here (world access_master refresh_ok)
               = (Ret (Some err), world access_master refresh_ok)
               /\ errors_Is err ErrMasterCredentials = true)
  <-> exists m, decodes (AccessJwt (session access_master refresh_ok)) m
                /\ m !! "scope"%string <> Some (json.VString appPass).
Proof.
  apply (Check_master_credentials_iff here (world access_master refresh_ok)
           (session access_master refresh_ok)).
  reflexivity.
Defined.

(** X4 at an expired session. *)
Lemma Check_session_expired_iff_witness :
  (exists err, Check here (world access_expired refresh_ok)
               = (Ret (Some err), world access_expired refresh_ok)
               /\ errors_Is err ErrSessionExpired = true)
  <-> exists m d, decodes (AccessJwt (session access_expired refresh_ok)) m
                  /\ m !! "scope"%string = Some (json.VString appPass)
                  /\ jwt.GetExpirationTime (jwt.IMapClaims m) = (Some d, None)
                  /\ time.Before (jwt.Time d) (now (world access_expired refresh_ok)) = true.
Proof.
  apply (Check_session_expired_iff here (world access_expired refresh_ok)
           (session access_expired refresh_ok)).
  reflexivity.
Defined.

(** X6 with the clock at 1700007200 s, the expiration of [access_ok]. *)
Lemma Check_expiration_at_clock_witness :
  jwt.Time (date 1700007200) = now (world_at 1700007200 access_ok refresh_ok)
  /\ Check here (world_at 1700007200 access_ok refresh_ok)
     = (Ret None, world_at 1700007200 access_ok refresh_ok).
Proof.
  split; [reflexivity|].
  apply (Check_expiration_at_clock here (world_at 1700007200 access_ok refresh_ok)
           (session access_ok refresh_ok) (claims access_ok) (date 1700007200)).
  - reflexivity.
  - decoded.
  - vm_compute. reflexivity.
  - vm_compute. reflexivity.
  - reflexivity.
  - apply (refresh_passes_decodes (session access_ok refresh_ok)
             (claims refresh_ok) (Some (date 1707776000))).
    + decoded.
    + vm_compute. reflexivity.
Defined.

(** X7 at two sessions whose tokens differ in every claim but the three. *)
Lemma Check_reads_scope_and_exp_witness :
  claims access_ok !! "sub"%string <> claims access_other !! "sub"%string
  /\ claims refresh_ok !! "scope"%string <> claims refresh_other !! "scope"%string
  /\ fst (Check here (world access_ok refresh_ok))
     = fst (Check there (other_world access_other refresh_other)).
Proof.
  split; [vm_compute; discriminate|]. split; [vm_compute; discriminate|].
  apply (Check_reads_scope_and_exp here there (world access_ok refresh_ok)
           (other_world access_other refresh_other)
           (session access_ok refresh_ok) (other_session access_other refresh_other)
           (claims access_ok) (claims access_other)
           (claims refresh_ok) (claims refresh_other)).
  - reflexivity.
  - reflexivity.
  - reflexivity.
  - decoded.
  - decoded.
  - decoded.
  - decoded.
  - vm_compute. reflexivity.
  - vm_compute. reflexivity.
  - vm_compute. reflexivity.
Defined.

(** X8 at an access token whose [exp] is a string. *)
Lemma Check_access_expiration_invalid_witness :
  exists err,
    Check here (world access_badexp refresh_ok)
    = (Ret (Some err), world access_badexp refresh_ok)
    /\ err = library (jwt.newError "exp is invalid" (jwt.var jwt.ErrInvalidType) [])
    /\ Error err = "invalid type for claim: exp is invalid"%string
    /\ no_sentinel err.
Proof.
  apply (Check_access_expiration_invalid here (world access_badexp refresh_ok)
           (session access_badexp refresh_ok) (claims access_badexp) (json.VString "soon")).
  - reflexivity.
  - decoded.
  - vm_compute. reflexivity.
  - vm_compute. reflexivity.
  - discriminate.
Defined.

(** X9 at an expired session and at an accepted one, a minute apart: the
    first stays expired, the second was accepted the minute before. *)
Lemma Check_expiry_monotone_witness :
  ((forall err,
      Check here (world access_expired refresh_ok)
      = (Ret (Some err), world access_expired refresh_ok) ->
      errors_Is err ErrSessionExpired = true ->
      Check here (later (world access_expired refresh_ok))
      = (Ret (Some err), later (world access_expired refresh_ok)))
   /\ (Check here (later (world access_expired refresh_ok))
       = (Ret None, later (world access_expired refresh_ok)) ->
       Check here (world access_expired refresh_ok)
       = (Ret None, world access_expired refresh_ok)))
  /\ Check here (later (world access_expired refresh_ok))
     = (Ret (Some (session_expired_error (jwt.Time (date 1700000000)))),
        later (world access_expired refresh_ok))
  /\ Check here (later (world access_ok refresh_ok))
     = (Ret None, later (world access_ok refresh_ok))
  /\ Check here (world access_ok refresh_ok) = (Ret None, world access_ok refresh_ok).
Proof.
  assert (Hexpired := Check_expiry_monotone here (world access_expired refresh_ok)
            (later (world access_expired refresh_ok)) (session access_expired refresh_ok)
            eq_refl eq_refl).
  assert (Haccepted := Check_expiry_monotone here (world access_ok refresh_ok)
            (later (world access_ok refresh_ok)) (session access_ok refresh_ok)
            eq_refl eq_refl).
  split; [apply Hexpired; vm_compute; discriminate|].
  split.
  { apply Hexpired; [vm_compute; discriminate | vm_compute; reflexivity | reflexivity]. }
  split; [vm_compute; reflexivity|].
  apply Haccepted; [vm_compute; discriminate | vm_compute; reflexivity].
Defined.

(** X10 at a session that carries [access_ok] twice. *)
Lemma Check_same_token_twice_witness :
  Check here (world access_ok access_ok) = (Ret None, world access_ok access_ok).
Proof.
  apply (Check_same_token_twice here (world access_ok access_ok)
           (session access_ok access_ok)).
  - reflexivity.
  - apply access_ok_passes.
  - reflexivity.
Defined.

(** ** An expiration of zero

    The library reads the number zero in [exp] as no expiration at all:
    the accessor returns a nil date with a nil error, whatever the clock. *)

Section ZeroExpiration.
Context `{time.Local, jwt.Codec}.

(** C2 fails on the code: an access token with scope
    [com.atproto.appPass] whose [exp] claim is the number zero carries an
    expiration, the epoch, that is before every clock of today; [Check]
    does not return the error of [ErrSessionExpired] for it, nor any
    error: it panics on [current.Time], the date being nil. *)
Theorem Check_zero_expiration_panics (sess : ptr) (w : World) s m f :
  deref w sess = Some s ->
  decodes (AccessJwt s) m ->
  m !! "scope"%string = Some (json.VString appPass) ->
  m !! "exp"%string = Some (json.VFloat64 f) ->
  PrimFloat.eqb f 0%float = true ->
  Check sess w = (Panic nil_dereference, w)
  /\ forall err, Check sess w <> (Ret (Some err), w).
Proof.
  intros Hs Hm Hscope Hexp Hzero.
  assert (Hpanic : Check sess w = (Panic nil_dereference, w)).
  { apply (Check_expiration_nil sess w s m Hs Hm Hscope).
    apply GetExpirationTime_nil. right. now exists f. }
  split; [exact Hpanic|]. intros err Herr. rewrite Hpanic in Herr. discriminate.
Qed.

End ZeroExpiration.

(** C2 at the token with [exp] 0, at a clock of 2023: the instant of zero
    seconds is before the clock, and the call panics. *)
Lemma Check_zero_expiration_panics_witness :
  claims access_zeroexp !! "exp"%string = Some (json.VFloat64 0%float)
  /\ time.Before (jwt.Time (jwt.newNumericDateFromSeconds 0%float))
       (now (world access_zeroexp refresh_ok)) = true
  /\ Check here (world access_zeroexp refresh_ok)
     = (Panic nil_dereference, world access_zeroexp refresh_ok)
  /\ forall err,
       Check here (world access_zeroexp refresh_ok)
       <> (Ret (Some err), world access_zeroexp refresh_ok).
Proof.
  split; [vm_compute; reflexivity|]. split; [vm_compute; reflexivity|].
  apply (Check_zero_expiration_panics here (world access_zeroexp refresh_ok)
           (session access_zeroexp refresh_ok) (claims access_zeroexp) 0%float).
  - reflexivity.
  - decoded.
  - vm_compute. reflexivity.
  - vm_compute. reflexivity.
  - reflexivity.
Defined.
